(** * A todo list in the model / controller / view style (script.js)

    The JavaScript program keeps one global [model] object whose [items]
    array is mutated in place, a [controller] that reacts to DOM events and
    a [view] that rebuilds the [<ul>] of the page from the model.

    The embedding is shallow: the mutable globals become an explicit state
    that every method threads through, and a JavaScript exception becomes
    an abrupt completion that carries the state reached when it was
    raised. *)

From Stdlib Require Import ZArith Lia.
From stdpp Require Import base numbers list strings.

(** ** JavaScript values and completions *)

(** The two primitive kinds that reach a [===] in the script: numbers (the
    key constants) and strings (what the DOM hands over). *)
Inductive js_value : Type :=
| JSNumber (n : Z)
| JSString (s : string).

(** [a === b]: values of different types are never strictly equal. *)
Definition strict_equal (a b : js_value) : bool :=
  match a, b with
  | JSNumber x, JSNumber y => bool_decide (x = y)
  | JSString x, JSString y => bool_decide (x = y)
  | _, _ => false
  end.

(** Keycode for the ENTER and ESC keys. *)
Definition ENTER_KEY : js_value := JSNumber 13.
Definition ESC_KEY : js_value := JSNumber 27.

(** The only exception the script can provoke: reading or writing a
    property of [undefined]. *)
Inductive js_error : Type :=
| TypeError.

(** Outcome of running a method from a state of type [St]. *)
Inductive completion (St A : Type) : Type :=
| Normal (a : A) (s : St)
| Throw (e : js_error) (s : St).
Arguments Normal {St A} a s.
Arguments Throw {St A} e s.

(** A method: a state transformer that may complete abruptly. *)
Definition js (St A : Type) : Type := St → completion St A.

#[global] Instance js_ret {St} : MRet (js St) := λ A a s, Normal a s.

#[global] Instance js_bind {St} : MBind (js St) := λ A B k m s,
  match m s with
  | Normal a s' => k a s'
  | Throw e s' => Throw e s'
  end.

Definition get {St} : js St St := λ s, Normal s s.
Definition put {St} (s : St) : js St unit := λ _, Normal tt s.
Definition throw {St A} (e : js_error) : js St A := λ s, Throw e s.

(** ** Arrays *)

(** [array[index]] for an integer index: [None] stands for [undefined]. *)
Definition array_get {A} (array : list A) (index : Z) : option A :=
  if (index <? 0)%Z then None else array !! Z.to_nat index.

(** [array.splice(start, deleteCount)] with no inserted elements, as
    ECMAScript defines it: a negative [start] counts from the end, and both
    arguments are clamped to the array.  The result is the array after the
    call. *)
Definition splice {A} (array : list A) (start deleteCount : Z) : list A :=
  let len := Z.of_nat (length array) in
  let actualStart :=
    if (start <? 0)%Z then Z.max (len + start) 0 else Z.min start len in
  let actualDeleteCount := Z.min (Z.max deleteCount 0) (len - actualStart) in
  take (Z.to_nat actualStart) array
    ++ drop (Z.to_nat (actualStart + actualDeleteCount)) array.

(** ** The data model *)

(** [{ name: ..., done: true/false }] *)
Record TodoItem : Type := mkTodoItem {
  name : string;
  done : bool
}.

Definition set_name (n : string) (item : TodoItem) : TodoItem :=
  {| name := n; done := done item |}.

Definition set_done (b : bool) (item : TodoItem) : TodoItem :=
  {| name := name item; done := b |}.

(** [JSON.parse(stringifiedTodoItems)] *)
Definition initial_items : list TodoItem :=
  [ {| name := "This item is done"; done := true |};
    {| name := "This item is not done"; done := false |} ].

(** [{ numItems: ..., numDoneItems: ... }] *)
Record Counts : Type := mkCounts {
  numItems : nat;
  numDoneItems : nat
}.

(** [array.forEach(callback)] over the [items] array held in the state.
    The length is read once, before the first call; every call sees the
    array as the previous calls left it.  A local variable that the
    callback closes over and assigns to is passed along as [acc].
    [forEach_from k n] performs the [n] iterations that start at index
    [k]. *)
Fixpoint forEach_from {Acc} (k n : nat)
    (callback : Acc → TodoItem → Z → js (list TodoItem) Acc) (acc : Acc)
    : js (list TodoItem) Acc :=
  match n with
  | O => mret acc
  | S n' =>
      items ← get;
      acc' ← match items !! k with
             | Some item => callback acc item (Z.of_nat k)
             | None => mret acc
             end;
      forEach_from (S k) n' callback acc'
  end.

Definition forEach {Acc}
    (callback : Acc → TodoItem → Z → js (list TodoItem) Acc) (acc : Acc)
    : js (list TodoItem) Acc :=
  items ← get;
  forEach_from 0 (length items) callback acc.

(** ** The model *)

Module model.

(** Count the total number of items and the number of done items. *)
Definition countItems : js (list TodoItem) Counts :=
  items ← get;
  let numItems := length items in
  numDoneItems ← forEach (λ numDoneItems item _,
      mret (if bool_decide (done item = true)
            then S numDoneItems else numDoneItems)) 0;
  mret {| numItems := numItems; numDoneItems := numDoneItems |}.

(** Create a todo item, set it as undone and add it to the "items" array. *)
Definition createItem (name : string) : js (list TodoItem) unit :=
  let newItem := {| name := name; done := false |} in
  items ← get;
  put (items ++ [newItem]).

(** Change the name of the specified todo item:
    [this.items[index].name = name]. *)
Definition changeItemName (index : Z) (name : string)
    : js (list TodoItem) unit :=
  items ← get;
  match array_get items index with
  | Some _ => put (alter (set_name name) (Z.to_nat index) items)
  | None => throw TypeError
  end.

(** Delete the specified item: [this.items.splice(index, 1)]. *)
Definition deleteItem (index : Z) : js (list TodoItem) unit :=
  items ← get;
  put (splice items index 1).

(** Delete all items: [this.items.splice(0, this.items.length)]. *)
Definition deleteAllItems : js (list TodoItem) unit :=
  items ← get;
  put (splice items 0 (Z.of_nat (length items))).

(** Toggle the status of the specified item:
    [this.items[index].done = !this.items[index].done]. *)
Definition toggleItem (index : Z) : js (list TodoItem) unit :=
  items ← get;
  match array_get items index with
  | Some _ =>
      put (alter (λ item, set_done (negb (done item)) item)
                 (Z.to_nat index) items)
  | None => throw TypeError
  end.

(** Toggle the status of all items.  In the second branch the callback
    writes through [item], which is the object stored at [index]. *)
Definition toggleAllItems : js (list TodoItem) unit :=
  c ← countItems;
  if bool_decide (numItems c = numDoneItems c)
     || bool_decide (numDoneItems c = 0)
  then
    forEach (λ _ item index, toggleItem index) tt
  else
    forEach (λ _ item index,
      if negb (done item)
      then items ← get; put (alter (set_done true) (Z.to_nat index) items)
      else mret tt) tt.

End model.

(** ** The browser *)

(** What the script takes from the browser as given.  Assigning a string to
    an element's [innerHTML] makes the browser parse it as HTML; what the
    element then holds, read back as text, is [innerHTML_read_back] of the
    string.  Nothing is assumed about that function: markup in the string
    may come back changed. *)
Class Browser : Type := mkBrowser {
  innerHTML_read_back : string → string
}.

(** A browser as far as text without markup goes: such text reads back as
    it was written.  The worked examples on the initial items, whose names
    hold no markup, run in it. *)
Definition plain_text_browser : Browser :=
  {| innerHTML_read_back := λ text, text |}.

(** Line feed and carriage return. *)
Definition LF : Ascii.ascii := Ascii.ascii_of_nat 10.
Definition CR : Ascii.ascii := Ascii.ascii_of_nat 13.

(** Assigning to the [value] of an [<input type="text">] strips the line
    breaks (line feed and carriage return) from the string. *)
Fixpoint strip_newlines (s : string) : string :=
  match s with
  | EmptyString => EmptyString
  | String c s' =>
      if Ascii.eqb c LF || Ascii.eqb c CR
      then strip_newlines s'
      else String c (strip_newlines s')
  end.

(** ** The page *)

(** One [<li>] of the list, with the four children that the view gives it:
    the checkbox, the label, the edit input and the delete button.  The
    [id] attribute is written as the decimal text of the loop index [i]
    and read back as an array key, so it is kept as that index; the delete
    button's listener closes over the same [i].  [itemLabel_innerHTML] and
    [inputBox_value] are what these two properties read back. *)
Record ListElement : Type := mkListElement {
  li_id : nat;
  checkBox_checked : bool;
  itemLabel_innerHTML : string;
  itemLabel_strikethrough : bool;
  inputBox_value : string;
  inputBox_hide : bool;
  deleteButton_index : nat
}.

(** The parts of the document that the script reads or writes. *)
Record Document : Type := mkDocument {
  toggleAllButton_hide : bool;
  todoListUL : list ListElement
}.

(** The whole mutable state: the model's array and the document. *)
Record Page : Type := mkPage {
  model_items : list TodoItem;
  document : Document
}.

(** A model method run on the page: it touches [model.items] only. *)
Definition on_model {A} (m : js (list TodoItem) A) : js Page A := λ s,
  match m (model_items s) with
  | Normal a items' =>
      Normal a {| model_items := items'; document := document s |}
  | Throw e items' =>
      Throw e {| model_items := items'; document := document s |}
  end.

Definition modify_document (f : Document → Document) : js Page unit := λ s,
  Normal tt {| model_items := model_items s; document := f (document s) |}.

(** [parent.childNodes[0]]: the position of the first child, if any. *)
Definition childNodes_0 {A} (children : list A) : option nat :=
  match children with
  | [] => None
  | _ :: _ => Some 0
  end.

(** [parent.insertBefore(newNode, referenceNode)]: with no reference node
    the new node goes to the end of the children. *)
Definition insertBefore {A} (newNode : A) (referenceNode : option nat)
    (children : list A) : list A :=
  match referenceNode with
  | None => children ++ [newNode]
  | Some k => take k children ++ newNode :: drop k children
  end.

(** The page together with the text field for new items
    ([create-item-input]). *)
Record Window : Type := mkWindow {
  window_page : Page;
  createItemInput_value : string
}.

(** A method of the page run in the window: the text field for new items
    is out of its reach. *)
Definition on_page {A} (m : js Page A) : js Window A := λ w,
  match m (window_page w) with
  | Normal a p' =>
      Normal a {| window_page := p';
                  createItemInput_value := createItemInput_value w |}
  | Throw e p' =>
      Throw e {| window_page := p';
                 createItemInput_value := createItemInput_value w |}
  end.

(** ** The view *)

Module view.

Section in_browser.
  Context {browser : Browser}.

(** The [<li>] built by one turn of the rendering loop.  The item's name is
    assigned to the [value] of the text input and to the [innerHTML] of the
    label. *)
Definition listElement (i : nat) (item : TodoItem) : ListElement :=
  {| li_id := i;
     checkBox_checked := if done item then true else false;
     itemLabel_innerHTML := innerHTML_read_back (name item);
     itemLabel_strikethrough := if done item then true else false;
     inputBox_value := strip_newlines (name item);
     inputBox_hide := true;
     deleteButton_index := i |}.

(** The body of [for (let i = 0; i < model.items.length; i++)], for the
    [n] turns that start at [i]; the body does not change the model, so
    the bound is the same at every turn. *)
Fixpoint displayTodoItems_loop (i n : nat) : js Page unit :=
  match n with
  | O => mret tt
  | S n' =>
      s ← get;
      match model_items s !! i with
      | Some item =>
          modify_document (λ d,
            {| toggleAllButton_hide := toggleAllButton_hide d;
               todoListUL :=
                 insertBefore (listElement i item)
                              (childNodes_0 (todoListUL d))
                              (todoListUL d) |});;
          displayTodoItems_loop (S i) n'
      | None => throw TypeError
      end
  end.

(** Render all todo items on the webpage. *)
Definition displayTodoItems : js Page unit :=
  s ← get;
  modify_document (λ d,
    {| toggleAllButton_hide :=
         if bool_decide (0 < length (model_items s)) then false
         else if bool_decide (length (model_items s) = 0) then true
         else toggleAllButton_hide d;
       todoListUL := todoListUL d |});;
  modify_document (λ d,
    {| toggleAllButton_hide := toggleAllButton_hide d;
       todoListUL := [] |});;
  displayTodoItems_loop 0 (length (model_items s)).

End in_browser.

End view.

(** ** The controller *)

(** A [keyup] event on an edit input.  [target_li] is the [<li>] that holds
    the input ([event.target.parentElement]), in the state the user left
    it; [code] is the event's [code] property. *)
Record KeyEvent : Type := mkKeyEvent {
  code : js_value;
  target_li : ListElement
}.

Module controller.

Section in_browser.
  Context {browser : Browser}.

(** Change the name of the specified item. *)
Definition changeItemName (index : Z) (name : string) : js Page unit :=
  on_model (model.changeItemName index name);;
  view.displayTodoItems.

(** Delete the specified item. *)
Definition deleteItem (index : Z) : js Page unit :=
  on_model (model.deleteItem index);;
  view.displayTodoItems.

(** Toggle the status of all items. *)
Definition toggleAllItems : js Page unit :=
  on_model model.toggleAllItems;;
  view.displayTodoItems.

(** [selectedItemInput.value = v] for the input inside the [<li>] whose id
    is [id]: the write lands on that element of the document, with the
    line breaks of [v] stripped. *)
Definition set_inputBox_value (id : nat) (v : string) (d : Document)
    : Document :=
  {| toggleAllButton_hide := toggleAllButton_hide d;
     todoListUL :=
       (λ li, if bool_decide (li_id li = id)
              then {| li_id := li_id li;
                      checkBox_checked := checkBox_checked li;
                      itemLabel_innerHTML := itemLabel_innerHTML li;
                      itemLabel_strikethrough := itemLabel_strikethrough li;
                      inputBox_value := strip_newlines v;
                      inputBox_hide := inputBox_hide li;
                      deleteButton_index := deleteButton_index li |}
              else li) <$> todoListUL d |}.

(** Update the name of the selected todo item when the ENTER key is
    pressed; exit editing mode and revert to the original name when the
    ESC key is pressed. *)
Definition updateItemNameOnKeyUp (event : KeyEvent) : js Page unit :=
  let id := li_id (target_li event) in
  let newName := inputBox_value (target_li event) in
  if strict_equal (code event) ENTER_KEY
     && negb (bool_decide (newName = ""))
  then changeItemName (Z.of_nat id) newName
  else if strict_equal (code event) ESC_KEY
  then
    s ← get;
    match model_items s !! id with
    | Some item =>
        modify_document (set_inputBox_value id (name item));;
        view.displayTodoItems
    | None => throw TypeError
    end
  else mret tt.

(** Update the name of the selected todo item when the user clicks on
    anything that lies outside the input box.  [target_li] is the [<li>]
    around the input that lost the focus; its id reaches [splice] as a
    decimal string, which [splice] converts to the number it spells. *)
Definition updateItemNameOnFocusOut (target_li : ListElement)
    : js Page unit :=
  let id := li_id target_li in
  let newName := inputBox_value target_li in
  if negb (bool_decide (newName = ""))
  then changeItemName (Z.of_nat id) newName
  else deleteItem (Z.of_nat id).

(** Delete all items.  [deleteConfirmed] is the answer of [confirm]. *)
Definition deleteAllItems (deleteConfirmed : bool) : js Page unit :=
  if deleteConfirmed
  then on_model model.deleteAllItems;; view.displayTodoItems
  else mret tt.

(** Read the index of the selected item from the UI and toggle its
    status.  [target_li] is the [<li>] around the checkbox that changed. *)
Definition toggleItem (target_li : ListElement) : js Page unit :=
  let id := li_id target_li in
  on_model (model.toggleItem (Z.of_nat id));;
  view.displayTodoItems.

(** Read the content from the input field and create a new todo item. *)
Definition createItem : js Window unit :=
  w ← get;
  let newContent_value := createItemInput_value w in
  on_page (on_model (model.createItem newContent_value));;
  (λ w, Normal tt {| window_page := window_page w;
                     createItemInput_value := "" |});;
  on_page view.displayTodoItems.

End in_browser.

End controller.

(** ** Specification vocabulary *)

(** Every item carries the same done flag. *)
Definition all_same_done (items : list TodoItem) : bool :=
  forallb done items || forallb (λ item, negb (done item)) items.

(** No item is done. *)
Definition none_done (items : list TodoItem) : bool :=
  forallb (λ item, negb (done item)) items.

(** The item with its done flag flipped. *)
Definition flip_done (item : TodoItem) : TodoItem :=
  set_done (negb (done item)) item.

(** [index] is not a position of [items]. *)
Definition out_of_bounds (items : list TodoItem) (index : Z) : Prop :=
  (index < 0 ∨ Z.of_nat (length items) ≤ index)%Z.

(** Whether a run ended in an exception. *)
Definition faults {St A} (c : completion St A) : bool :=
  match c with
  | Normal _ _ => false
  | Throw _ _ => true
  end.

(** The items as a reader of the page meets them, first child first: the
    text of each label with the state of its checkbox. *)
Definition displayed_items (d : Document) : list TodoItem :=
  (λ li, {| name := itemLabel_innerHTML li; done := checkBox_checked li |})
    <$> todoListUL d.

Section page_vocabulary.
  Context {browser : Browser}.

(** An item as its row shows it: the name as the label reads it back. *)
Definition shown_item (item : TodoItem) : TodoItem :=
  {| name := innerHTML_read_back (name item); done := done item |}.

(** The page as [view.displayTodoItems] leaves it for the given model. *)
Definition rendered (items : list TodoItem) : Page :=
  {| model_items := items;
     document :=
       {| toggleAllButton_hide := bool_decide (length items = 0);
          todoListUL := reverse (imap view.listElement items) |} |}.

(** The user has typed [text] into the edit input of the [<li>] with the
    given id. *)
Definition typed_into (id : nat) (text : string) (li : ListElement)
    : ListElement :=
  if bool_decide (li_id li = id)
  then {| li_id := li_id li;
          checkBox_checked := checkBox_checked li;
          itemLabel_innerHTML := itemLabel_innerHTML li;
          itemLabel_strikethrough := itemLabel_strikethrough li;
          inputBox_value := text;
          inputBox_hide := false;
          deleteButton_index := deleteButton_index li |}
  else li.

(** The page while the edit input of item [id] holds [text]. *)
Definition editing (items : list TodoItem) (id : nat) (text : string)
    : Page :=
  {| model_items := items;
     document :=
       {| toggleAllButton_hide := bool_decide (length items = 0);
          todoListUL :=
            typed_into id text <$> todoListUL (document (rendered items)) |}
  |}.

(** The [keyup] event that a browser delivers for a key released in the
    edit input of the first item: [code] is the DOM's name of the physical
    key, a string. *)
Definition keyup_in_first_item (key : string) (text : string) : KeyEvent :=
  {| code := JSString key;
     target_li :=
       typed_into 0 text
         (view.listElement 0 (mkTodoItem "This item is done" true)) |}.

(** How a handler started on page [p] may end: with the document rebuilt
    from the model it leaves, or with an exception and the page as it
    was. *)
Definition settled (p : Page) (c : completion Page unit) : Prop :=
  match c with
  | Normal _ p' => p' = rendered (model_items p')
  | Throw _ p' => p' = p
  end.

End page_vocabulary.

(** The position that [splice] starts from for a given index. *)
Definition splice_start (items : list TodoItem) (index : Z) : nat :=
  Z.to_nat (if (index <? 0)%Z
            then Z.max (Z.of_nat (length items) + index) 0
            else Z.min index (Z.of_nat (length items))).

(** The state in which a run ended, normally or not. *)
Definition final_state {St A} (c : completion St A) : St :=
  match c with
  | Normal _ s => s
  | Throw _ s => s
  end.

(** * Properties *)

(** ** Running the monad *)

Lemma js_bind_Normal {St A B} (m : js St A) (k : A → js St B) s a s' :
  m s = Normal a s' → (m ≫= k) s = k a s'.
Proof. intros H. unfold mbind, js_bind. by rewrite H. Qed.

Lemma js_bind_Throw {St A B} (m : js St A) (k : A → js St B) s e s' :
  m s = Throw e s' → (m ≫= k) s = Throw e s'.
Proof. intros H. unfold mbind, js_bind. by rewrite H. Qed.

(** ** [forEach] with a callback that rewrites only the visited element *)

Section forEach_pointwise.
  Context {Acc : Type}.
  Variable callback : Acc → TodoItem → Z → js (list TodoItem) Acc.
  Variable f : TodoItem → TodoItem.
  Variable g : Acc → TodoItem → Acc.
  Hypothesis callback_at : ∀ acc item pre rest,
    callback acc item (Z.of_nat (length pre)) (pre ++ item :: rest)
    = Normal (g acc item) (pre ++ f item :: rest).

Lemma forEach_from_beyond n : ∀ k acc (items : list TodoItem),
  length items ≤ k →
  forEach_from k n callback acc items = Normal acc items.
Proof.
  induction n as [|n IH]; intros k acc items Hk; [done|].
  cbn [forEach_from]. unfold mbind, js_bind, get.
  rewrite lookup_ge_None_2 by done.
  apply IH. lia.
Qed.

Lemma forEach_from_pointwise n : ∀ pre rest acc,
  forEach_from (length pre) n callback acc (pre ++ rest)
  = Normal (foldl g acc (take n rest))
           (pre ++ (f <$> take n rest) ++ drop n rest).
Proof.
  induction n as [|n IH]; intros pre rest acc.
  - by rewrite take_0, drop_0.
  - destruct rest as [|item rest].
    + rewrite forEach_from_beyond by (rewrite length_app; simpl; lia).
      done.
    + cbn [forEach_from]. unfold mbind at 1 2, js_bind, get.
      rewrite list_lookup_middle by done.
      rewrite callback_at.
      replace (S (length pre)) with (length (pre ++ [f item]))
        by (rewrite length_app; simpl; lia).
      replace (pre ++ f item :: rest) with ((pre ++ [f item]) ++ rest)
        by by rewrite <- app_assoc.
      rewrite IH. simpl. by rewrite <- app_assoc.
Qed.

Lemma forEach_pointwise acc (items : list TodoItem) :
  forEach callback acc items = Normal (foldl g acc items) (f <$> items).
Proof.
  unfold forEach, mbind, js_bind, get.
  pose proof (forEach_from_pointwise (length items) [] items acc) as H.
  simpl in H. rewrite H.
  by rewrite firstn_all, drop_all, app_nil_r.
Qed.

End forEach_pointwise.

(** ** Arrays *)

Lemma array_get_of_nat {A} (l : list A) (i : nat) :
  array_get l (Z.of_nat i) = l !! i.
Proof.
  unfold array_get.
  destruct (Z.ltb_spec (Z.of_nat i) 0); [lia|]. by rewrite Nat2Z.id.
Qed.

Lemma array_get_out_of_bounds (items : list TodoItem) index :
  out_of_bounds items index → array_get items index = None.
Proof.
  unfold out_of_bounds, array_get. intros Hb.
  destruct (Z.ltb_spec index 0); [done|].
  apply lookup_ge_None_2. lia.
Qed.

Lemma alter_middle {A} (f : A → A) pre x rest :
  alter f (length pre) (pre ++ x :: rest) = pre ++ f x :: rest.
Proof. rewrite alter_app_r_alt by done. by rewrite Nat.sub_diag. Qed.

Lemma splice_eq {A} (l : list A) start deleteCount (from to : nat) :
  (if (start <? 0)%Z then Z.max (Z.of_nat (length l) + start) 0
   else Z.min start (Z.of_nat (length l))) = Z.of_nat from →
  (Z.of_nat from
   + Z.min (Z.max deleteCount 0) (Z.of_nat (length l) - Z.of_nat from))%Z
  = Z.of_nat to →
  splice l start deleteCount = take from l ++ drop to l.
Proof.
  intros Hfrom Hto. unfold splice. cbv zeta.
  by rewrite Hfrom, Hto, !Nat2Z.id.
Qed.

Lemma splice_one_in_bounds {A} (l : list A) (i : nat) :
  i < length l → splice l (Z.of_nat i) 1 = delete i l.
Proof.
  intros Hi. rewrite delete_take_drop.
  apply splice_eq.
  - destruct (Z.ltb_spec (Z.of_nat i) 0); lia.
  - lia.
Qed.

Lemma splice_one_last {A} (l : list A) :
  l ≠ [] → splice l (-1) 1 = take (length l - 1) l.
Proof.
  intros Hl.
  assert (0 < length l) by (destruct l; [done|simpl; lia]).
  rewrite (splice_eq l (-1) 1 (length l - 1) (length l)).
  - by rewrite drop_all, app_nil_r.
  - change (-1 <? 0)%Z with true. cbv iota. lia.
  - lia.
Qed.

Lemma splice_one_beyond {A} (l : list A) index :
  (Z.of_nat (length l) ≤ index)%Z → splice l index 1 = l.
Proof.
  intros Hi.
  rewrite (splice_eq l index 1 (length l) (length l)).
  - by rewrite firstn_all, drop_all, app_nil_r.
  - destruct (Z.ltb_spec index 0); lia.
  - lia.
Qed.

(** ** The model's methods as list functions *)

Lemma toggleItem_at pre item rest :
  model.toggleItem (Z.of_nat (length pre)) (pre ++ item :: rest)
  = Normal tt (pre ++ flip_done item :: rest).
Proof.
  unfold model.toggleItem, mbind, js_bind, get, put.
  rewrite array_get_of_nat, list_lookup_middle by done.
  rewrite Nat2Z.id.
  by rewrite alter_middle.
Qed.

Lemma foldl_count_done acc (items : list TodoItem) :
  foldl (λ n item, if bool_decide (done item = true) then S n else n)
        acc items
  = acc + length (filter (λ item, done item = true) items).
Proof.
  revert acc. induction items as [|item items IH]; intros acc; simpl.
  - lia.
  - rewrite IH, filter_cons.
    destruct (decide (done item = true)) as [Hd|Hd].
    + rewrite bool_decide_eq_true_2 by done. simpl. lia.
    + rewrite bool_decide_eq_false_2 by done. lia.
Qed.

Lemma countItems_eq (items : list TodoItem) :
  model.countItems items
  = Normal {| numItems := length items;
              numDoneItems :=
                length (filter (λ item, done item = true) items) |}
           items.
Proof.
  unfold model.countItems.
  unfold mbind at 1, js_bind at 1, get.
  erewrite js_bind_Normal; last first.
  { apply (forEach_pointwise _ (λ item, item)
             (λ n item, if bool_decide (done item = true) then S n else n)).
    done. }
  rewrite foldl_count_done. simpl.
  by rewrite list_fmap_id.
Qed.

Lemma count_done_all (items : list TodoItem) :
  bool_decide (length items
               = length (filter (λ item, done item = true) items))
  = forallb done items.
Proof.
  induction items as [|item items IH]; [done|].
  rewrite filter_cons. simpl.
  pose proof (length_filter (λ item, done item = true) items).
  destruct (done item) eqn:Hd; simpl.
  - rewrite <- IH. apply bool_decide_ext. lia.
  - apply bool_decide_eq_false_2. lia.
Qed.

Lemma count_done_none (items : list TodoItem) :
  bool_decide (length (filter (λ item, done item = true) items) = 0)
  = forallb (λ item, negb (done item)) items.
Proof.
  induction items as [|item items IH]; [done|].
  rewrite filter_cons. simpl.
  by destruct (done item) eqn:Hd; simpl.
Qed.

Lemma toggleAllItems_eq (items : list TodoItem) :
  model.toggleAllItems items
  = Normal tt
      (if forallb done items || forallb (λ item, negb (done item)) items
       then flip_done <$> items
       else set_done true <$> items).
Proof.
  unfold model.toggleAllItems.
  erewrite js_bind_Normal by apply countItems_eq.
  cbn [numItems numDoneItems].
  rewrite count_done_all, count_done_none.
  destruct (forallb done items || forallb _ items).
  - rewrite (forEach_pointwise _ flip_done (λ _ _, tt)).
    + f_equal. by induction items.
    + intros [] item pre rest. apply toggleItem_at.
  - rewrite (forEach_pointwise _
               (λ item, if negb (done item) then set_done true item else item)
               (λ _ _, tt)).
    + f_equal; [by induction items|].
      apply list_fmap_ext. intros _ [n []] _; done.
    + intros [] item pre rest. destruct (done item); simpl; [done|].
      unfold mbind, js_bind, get, put.
      by rewrite Nat2Z.id, alter_middle.
Qed.

(** ** The model *)

(** C1: [toggleAllItems] flips every item when all items share one done
    flag or none is done, and otherwise sets every done flag to true; so
    [done,done] becomes [undone,undone], while [done,undone] and
    [undone,undone] both become [done,done]. *)
Theorem C1_toggleAllItems_policy (items : list TodoItem) :
  model.toggleAllItems items
  = Normal tt (if all_same_done items || none_done items
               then flip_done <$> items
               else set_done true <$> items)
  ∧ (∀ a b,
      model.toggleAllItems [mkTodoItem a true; mkTodoItem b true]
      = Normal tt [mkTodoItem a false; mkTodoItem b false])
  ∧ (∀ a b,
      model.toggleAllItems [mkTodoItem a true; mkTodoItem b false]
      = Normal tt [mkTodoItem a true; mkTodoItem b true])
  ∧ (∀ a b,
      model.toggleAllItems [mkTodoItem a false; mkTodoItem b false]
      = Normal tt [mkTodoItem a true; mkTodoItem b true]).
Proof.
  split; [|by repeat split; intros a b; rewrite toggleAllItems_eq].
  rewrite toggleAllItems_eq. unfold all_same_done, none_done.
  by destruct (forallb done items), (forallb _ items).
Qed.

(** C5: deleting at an in-bounds index [i] shortens the list by exactly
    one, drops the element that was at [i], keeps the elements before [i]
    where they were and moves every later element down by one. *)
Theorem C5_deleteItem_in_bounds (items : list TodoItem) (i : nat) :
  i < length items →
  ∃ items',
    model.deleteItem (Z.of_nat i) items = Normal tt items'
    ∧ length items' = length items - 1
    ∧ items' = take i items ++ drop (S i) items
    ∧ (∀ j, j < i → items' !! j = items !! j)
    ∧ (∀ j, i ≤ j → items' !! j = items !! S j).
Proof.
  intros Hi. exists (delete i items). repeat split.
  - unfold model.deleteItem, mbind, js_bind, get, put.
    by rewrite splice_one_in_bounds.
  - rewrite length_delete; [lia|]. by apply lookup_lt_is_Some_2.
  - apply delete_take_drop.
  - intros j Hj. by apply list_lookup_delete_lt.
  - intros j Hj. by apply list_lookup_delete_ge.
Qed.

Lemma C5_deleteItem_in_bounds_witness :
  ∃ items',
    model.deleteItem 0 initial_items = Normal tt items'
    ∧ length items' = 1
    ∧ items' = [mkTodoItem "This item is not done" false]
    ∧ (∀ j, j < 0 → items' !! j = initial_items !! j)
    ∧ (∀ j, 0 ≤ j → items' !! j = initial_items !! S j).
Proof.
  apply (C5_deleteItem_in_bounds initial_items 0). simpl. lia.
Defined.

(** C6: [createItem] accepts any name, the empty string included, and
    appends [{name, done: false}] at the end: the list grows by exactly
    one and the items already there stay as they were. *)
Theorem C6_createItem_appends (items : list TodoItem) (n : string) :
  ∃ items',
    model.createItem n items = Normal tt items'
    ∧ items' = items ++ [mkTodoItem n false]
    ∧ length items' = S (length items)
    ∧ items' !! length items = Some (mkTodoItem n false)
    ∧ (∀ j, j < length items → items' !! j = items !! j)
    ∧ model.createItem "" items = Normal tt (items ++ [mkTodoItem "" false]).
Proof.
  exists (items ++ [mkTodoItem n false]). repeat split.
  - rewrite length_app. simpl. lia.
  - by rewrite list_lookup_middle.
  - intros j Hj. by apply lookup_app_l.
Qed.

(** C7: toggling at an in-bounds index [i] negates the done flag of the
    item at [i] and nothing else (its name, and every other item, stay as
    they were); toggling twice gives back the original list. *)
Theorem C7_toggleItem_involution (items : list TodoItem) (i : nat) :
  i < length items →
  ∃ items',
    model.toggleItem (Z.of_nat i) items = Normal tt items'
    ∧ length items' = length items
    ∧ done <$> items' !! i = negb ∘ done <$> items !! i
    ∧ name <$> items' !! i = name <$> items !! i
    ∧ (∀ j, j ≠ i → items' !! j = items !! j)
    ∧ (model.toggleItem (Z.of_nat i);; model.toggleItem (Z.of_nat i)) items
      = Normal tt items.
Proof.
  intros Hi.
  destruct (lookup_lt_is_Some_2 items i Hi) as [item Hitem].
  destruct (take_drop_middle items i item Hitem) as [].
  assert (length (take i items) = i) as Hlen by (rewrite length_take; lia).
  set (pre := take i items) in *. set (rest := drop (S i) items) in *.
  clearbody pre rest. subst i.
  exists (pre ++ flip_done item :: rest). repeat split.
  - apply toggleItem_at.
  - rewrite !length_app. done.
  - by rewrite !list_lookup_middle.
  - by rewrite !list_lookup_middle.
  - intros j Hj.
    destruct (decide (j < length pre)).
    + by rewrite !lookup_app_l.
    + rewrite !lookup_app_r by lia.
      destruct (j - length pre) as [|k] eqn:Hk; [lia|done].
  - erewrite js_bind_Normal by apply toggleItem_at.
    rewrite toggleItem_at. f_equal. f_equal.
    destruct item as [n []]; done.
Qed.

Lemma C7_toggleItem_involution_witness :
  ∃ items',
    model.toggleItem 1 initial_items = Normal tt items'
    ∧ length items' = 2
    ∧ done <$> items' !! 1 = Some true
    ∧ name <$> items' !! 1 = Some "This item is not done"
    ∧ (∀ j, j ≠ 1 → items' !! j = initial_items !! j)
    ∧ (model.toggleItem 1;; model.toggleItem 1) initial_items
      = Normal tt initial_items.
Proof.
  apply (C7_toggleItem_involution initial_items 1). simpl. lia.
Defined.

(** C8: [countItems] returns the length of the list as [numItems] and the
    number of items whose done flag is true as [numDoneItems], and leaves
    the list as it found it; on the empty list it returns [{0, 0}]. *)
Theorem C8_countItems_counts (items : list TodoItem) :
  model.countItems items
  = Normal {| numItems := length items;
              numDoneItems :=
                length (filter (λ item, done item = true) items) |}
           items
  ∧ model.countItems [] = Normal {| numItems := 0; numDoneItems := 0 |} [].
Proof. split; [apply countItems_eq | done]. Qed.

(** C9: on a non-empty list [deleteItem(-1)] removes the last element, and
    for an index at or past the length [deleteItem] completes without an
    exception and leaves the list exactly as it was. *)
Theorem C9_deleteItem_splice_edges (items : list TodoItem) (index : Z) :
  (items ≠ [] →
   model.deleteItem (-1) items
   = Normal tt (take (length items - 1) items))
  ∧ ((Z.of_nat (length items) ≤ index)%Z →
     model.deleteItem index items = Normal tt items).
Proof.
  unfold model.deleteItem, mbind, js_bind, get, put. split; intros H.
  - by rewrite splice_one_last.
  - by rewrite splice_one_beyond.
Qed.

Lemma C9_deleteItem_splice_edges_witness :
  model.deleteItem (-1) initial_items
  = Normal tt [mkTodoItem "This item is done" true]
  ∧ model.deleteItem 2 initial_items = Normal tt initial_items.
Proof.
  destruct (C9_deleteItem_splice_edges initial_items 2) as [Hlast Hpast].
  split.
  - apply Hlast. discriminate.
  - apply Hpast. simpl. lia.
Defined.

(** C10: [toggleAllItems] keeps the length of the list and the name at
    every position; it changes done flags only. *)
Theorem C10_toggleAllItems_frame (items : list TodoItem) :
  ∃ items',
    model.toggleAllItems items = Normal tt items'
    ∧ length items' = length items
    ∧ (∀ j, name <$> items' !! j = name <$> items !! j).
Proof.
  rewrite toggleAllItems_eq.
  destruct (forallb done items || forallb _ items);
    eexists; (split; [done|]); split.
  - apply length_fmap.
  - intros j. rewrite list_lookup_fmap. by destruct (items !! j).
  - apply length_fmap.
  - intros j. rewrite list_lookup_fmap. by destruct (items !! j).
Qed.

(** C4 (as stated, refuted): an index past the end makes [deleteItem]
    return normally, not fault. *)
Lemma C4_deleteItem_does_not_fault :
  out_of_bounds initial_items 5
  ∧ faults (model.deleteItem 5 initial_items) = false
  ∧ model.deleteItem 5 initial_items = Normal tt initial_items.
Proof. split; [right; simpl; lia | done]. Qed.

(** C4 (amended): for an index outside the bounds of the list,
    [changeItemName] and [toggleItem] end in a [TypeError] with the list
    as it was, and [deleteItem] ends without an exception. *)
Theorem C4_out_of_bounds (items : list TodoItem) (index : Z) (n : string) :
  out_of_bounds items index →
  model.changeItemName index n items = Throw TypeError items
  ∧ model.toggleItem index items = Throw TypeError items
  ∧ faults (model.deleteItem index items) = false.
Proof.
  intros Hb. apply array_get_out_of_bounds in Hb.
  unfold model.changeItemName, model.toggleItem, mbind, js_bind, get.
  by rewrite Hb.
Qed.

Lemma C4_out_of_bounds_witness :
  model.changeItemName 2 "x" initial_items = Throw TypeError initial_items
  ∧ model.toggleItem 2 initial_items = Throw TypeError initial_items
  ∧ faults (model.deleteItem 2 initial_items) = false.
Proof.
  apply (C4_out_of_bounds initial_items 2 "x"). right. simpl. lia.
Defined.

(** ** The view *)

Section page_properties.
  Context {browser : Browser}.

Lemma insertBefore_childNodes_0 {A} (x : A) (children : list A) :
  insertBefore x (childNodes_0 children) children = x :: children.
Proof. by destruct children. Qed.

Lemma displayTodoItems_loop_step pre item rest n d :
  view.displayTodoItems_loop (length pre) (S n)
    {| model_items := pre ++ item :: rest; document := d |}
  = view.displayTodoItems_loop (S (length pre)) n
      {| model_items := pre ++ item :: rest;
         document :=
           {| toggleAllButton_hide := toggleAllButton_hide d;
              todoListUL :=
                view.listElement (length pre) item :: todoListUL d |} |}.
Proof.
  cbn [view.displayTodoItems_loop].
  unfold mbind at 1, js_bind at 1, get. cbn [model_items].
  rewrite list_lookup_middle by done.
  unfold mbind, js_bind, modify_document. cbn [model_items document].
  by rewrite insertBefore_childNodes_0.
Qed.

Lemma displayTodoItems_loop_eq rest : ∀ pre d,
  view.displayTodoItems_loop (length pre) (length rest)
    {| model_items := pre ++ rest; document := d |}
  = Normal tt
      {| model_items := pre ++ rest;
         document :=
           {| toggleAllButton_hide := toggleAllButton_hide d;
              todoListUL :=
                reverse (imap (λ j, view.listElement (length pre + j)) rest)
                ++ todoListUL d |} |}.
Proof.
  induction rest as [|item rest IH]; intros pre d.
  - by destruct d.
  - cbn [length]. rewrite displayTodoItems_loop_step.
    replace (S (length pre)) with (length (pre ++ [item]))
      by (rewrite length_app; simpl; lia).
    replace (pre ++ item :: rest) with ((pre ++ [item]) ++ rest)
      by by rewrite <- app_assoc.
    rewrite IH. cbn [toggleAllButton_hide todoListUL].
    rewrite imap_cons, reverse_cons, <- (app_assoc (reverse _)), Nat.add_0_r.
    assert (imap (λ j, view.listElement (length (pre ++ [item]) + j)) rest
            = imap ((λ j, view.listElement (length pre + j)) ∘ S) rest)
      as ->; [|done].
    apply imap_ext. intros j x _. simpl.
    f_equal. rewrite length_app. simpl. lia.
Qed.

Lemma displayTodoItems_eq (p : Page) :
  view.displayTodoItems p = Normal tt (rendered (model_items p)).
Proof.
  destruct p as [items d]. unfold view.displayTodoItems.
  unfold mbind, js_bind, get, modify_document.
  cbn [model_items document toggleAllButton_hide todoListUL].
  pose proof (displayTodoItems_loop_eq items []) as H. simpl in H.
  rewrite H. cbn [toggleAllButton_hide todoListUL]. unfold rendered.
  rewrite app_nil_r. do 3 f_equal.
  destruct items; done.
Qed.

Lemma displayed_items_listElement (items : list TodoItem) :
  (λ li, {| name := itemLabel_innerHTML li; done := checkBox_checked li |})
    <$> imap view.listElement items
  = shown_item <$> items.
Proof.
  apply list_eq. intros j.
  rewrite !list_lookup_fmap, list_lookup_imap.
  destruct (items !! j) as [[n []]|]; done.
Qed.

Lemma checked_listElement (items : list TodoItem) :
  checkBox_checked <$> imap view.listElement items = done <$> items.
Proof.
  apply list_eq. intros j.
  rewrite !list_lookup_fmap, list_lookup_imap.
  destruct (items !! j) as [[n []]|]; done.
Qed.

(** C2 (amended): [displayTodoItems] visits the model's items in array
    order and puts each new [<li>] in front of those already in the
    container, so the children end up in the reverse of the model's
    order: the first child belongs to the last item, and each [<li>]
    carries the model index of its item as its id and the item's done
    flag in its checkbox. *)
Theorem C2_displayTodoItems_reversed
    (pre rest : list TodoItem) (item : TodoItem) (n : nat) (d : Document) :
  view.displayTodoItems_loop (length pre) (S n)
    {| model_items := pre ++ item :: rest; document := d |}
  = view.displayTodoItems_loop (S (length pre)) n
      {| model_items := pre ++ item :: rest;
         document :=
           {| toggleAllButton_hide := toggleAllButton_hide d;
              todoListUL :=
                view.listElement (length pre) item :: todoListUL d |} |}
  ∧ ∀ items, ∃ d',
      view.displayTodoItems {| model_items := items; document := d |}
      = Normal tt {| model_items := items; document := d' |}
      ∧ todoListUL d' = reverse (imap view.listElement items)
      ∧ checkBox_checked <$> todoListUL d' = reverse (done <$> items)
      ∧ li_id <$> todoListUL d' = reverse (seq 0 (length items)).
Proof.
  split; [apply displayTodoItems_loop_step|].
  intros items. eexists. split; [apply displayTodoItems_eq|].
  cbn [rendered document todoListUL model_items]. split; [done|]. split.
  - by rewrite fmap_reverse, checked_listElement.
  - rewrite fmap_reverse. f_equal. apply list_eq. intros j.
    rewrite list_lookup_fmap, list_lookup_imap.
    destruct (items !! j) as [x|] eqn:Hj; simpl.
    + symmetry. apply lookup_seq. split; [done|].
      by apply lookup_lt_Some in Hj.
    + symmetry. apply lookup_ge_None_2. rewrite length_seq.
      by apply lookup_ge_None_1.
Qed.

(** ** The controller *)

Lemma controller_changeItemName_eq (p : Page) (i : nat) (n : string) :
  i < length (model_items p) →
  controller.changeItemName (Z.of_nat i) n p
  = Normal tt (rendered (alter (set_name n) i (model_items p))).
Proof.
  intros Hi. destruct (lookup_lt_is_Some_2 _ _ Hi) as [item Hitem].
  unfold controller.changeItemName.
  rewrite (js_bind_Normal _ _ p tt
             {| model_items := alter (set_name n) i (model_items p);
                document := document p |}).
  - by rewrite displayTodoItems_eq.
  - unfold on_model, model.changeItemName, mbind, js_bind, get, put.
    by rewrite array_get_of_nat, Hitem, Nat2Z.id.
Qed.

(** What the handler does when [event.code] is the number 13 and the input
    is not empty: the rename is committed and the page rendered anew. *)
Lemma updateItemNameOnKeyUp_code_13 (p : Page) (li : ListElement) :
  li_id li < length (model_items p) →
  inputBox_value li ≠ "" →
  controller.updateItemNameOnKeyUp {| code := JSNumber 13; target_li := li |} p
  = Normal tt
      (rendered (alter (set_name (inputBox_value li)) (li_id li)
                       (model_items p))).
Proof.
  intros Hi Hne. unfold controller.updateItemNameOnKeyUp.
  cbn [code target_li]. change (strict_equal _ ENTER_KEY) with true.
  rewrite bool_decide_eq_false_2 by done. cbn [andb negb].
  by apply controller_changeItemName_eq.
Qed.

(** What the handler does when [event.code] is the number 27: the model is
    left alone and the page rendered anew, the edit inputs showing the
    model's names again. *)
Lemma updateItemNameOnKeyUp_code_27 (p : Page) (li : ListElement) :
  li_id li < length (model_items p) →
  controller.updateItemNameOnKeyUp {| code := JSNumber 27; target_li := li |} p
  = Normal tt (rendered (model_items p)).
Proof.
  intros Hi. destruct (lookup_lt_is_Some_2 _ _ Hi) as [item Hitem].
  unfold controller.updateItemNameOnKeyUp.
  cbn [code target_li]. change (strict_equal _ ENTER_KEY) with false.
  change (strict_equal _ ESC_KEY) with true. cbn [andb].
  unfold mbind at 1, js_bind at 1, get. rewrite Hitem.
  erewrite js_bind_Normal by reflexivity.
  by rewrite displayTodoItems_eq.
Qed.

(** A string never equals the numeric key constants, so an event whose
    [code] is a string runs neither branch. *)
Lemma updateItemNameOnKeyUp_string_code (p : Page) (s : string)
    (li : ListElement) :
  controller.updateItemNameOnKeyUp {| code := JSString s; target_li := li |} p
  = Normal tt p.
Proof. done. Qed.

(** C3: releasing ENTER in the edit input of the first item, with the text
    "Buy milk" typed in, leaves the model's name for that item as it was,
    and releasing ESC leaves the typed text in the input: the handler
    compares the event's [code], a string, with the numbers 13 and 27. *)
Theorem C3_updateItemNameOnKeyUp_keys_ignored :
  let page := editing initial_items 0 "Buy milk" in
  controller.updateItemNameOnKeyUp (keyup_in_first_item "Enter" "Buy milk") page
  = Normal tt page
  ∧ name <$> model_items page !! 0 = Some "This item is done"
  ∧ controller.updateItemNameOnKeyUp
      (keyup_in_first_item "Escape" "Buy milk") page
    = Normal tt page
  ∧ inputBox_value <$> todoListUL (document page) !! 1 = Some "Buy milk".
Proof. done. Qed.

End page_properties.

(** * Further properties *)

(** ** The model: single items *)

Lemma run_put {St} (s s' : St) : put s' s = Normal tt s'.
Proof. done. Qed.

Lemma deleteItem_eq (items : list TodoItem) index :
  model.deleteItem index items = Normal tt (splice items index 1).
Proof. done. Qed.

Lemma splice_one_delete (items : list TodoItem) index :
  (index < Z.of_nat (length items))%Z → items ≠ [] →
  splice items index 1 = delete (splice_start items index) items.
Proof.
  intros Hi Hne.
  assert (0 < length items) by (destruct items; [done|simpl; lia]).
  rewrite delete_take_drop. unfold splice_start.
  apply splice_eq; destruct (Z.ltb_spec index 0); lia.
Qed.

Lemma splice_start_lt (items : list TodoItem) index :
  (index < Z.of_nat (length items))%Z → items ≠ [] →
  splice_start items index < length items.
Proof.
  intros Hi Hne.
  assert (0 < length items) by (destruct items; [done|simpl; lia]).
  unfold splice_start. destruct (Z.ltb_spec index 0); lia.
Qed.

(** [changeItemName] at an in-bounds index gives the item at that index the
    new name, keeps its done flag, and leaves the length of the list and
    every other item as they were. *)
Theorem changeItemName_in_bounds (items : list TodoItem) (i : nat)
    (n : string) :
  i < length items →
  ∃ items',
    model.changeItemName (Z.of_nat i) n items = Normal tt items'
    ∧ length items' = length items
    ∧ name <$> items' !! i = Some n
    ∧ done <$> items' !! i = done <$> items !! i
    ∧ (∀ j, j ≠ i → items' !! j = items !! j).
Proof.
  intros Hi. destruct (lookup_lt_is_Some_2 items i Hi) as [item Hitem].
  exists (alter (set_name n) i items). repeat split.
  - unfold model.changeItemName, mbind, js_bind, get.
    by rewrite array_get_of_nat, Hitem, Nat2Z.id.
  - apply length_alter.
  - by rewrite list_lookup_alter_eq, Hitem.
  - by rewrite list_lookup_alter_eq, Hitem.
  - intros j Hj. by apply list_lookup_alter_ne.
Qed.

Lemma changeItemName_in_bounds_witness :
  ∃ items',
    model.changeItemName 1 "Buy milk" initial_items = Normal tt items'
    ∧ length items' = 2
    ∧ name <$> items' !! 1 = Some "Buy milk"
    ∧ done <$> items' !! 1 = Some false
    ∧ (∀ j, j ≠ 1 → items' !! j = initial_items !! j).
Proof.
  apply (changeItemName_in_bounds initial_items 1 "Buy milk"). simpl. lia.
Defined.

Lemma deleteAllItems_eq (items : list TodoItem) :
  model.deleteAllItems items = Normal tt [].
Proof.
  unfold model.deleteAllItems, mbind, js_bind, get. rewrite run_put.
  rewrite (splice_eq items 0 _ 0 (length items)).
  - by rewrite drop_all.
  - change (0 <? 0)%Z with false. cbv iota. lia.
  - lia.
Qed.

(** [deleteAllItems] leaves the empty list whatever the list was, and a
    count taken afterwards is [{0, 0}]. *)
Theorem deleteAllItems_empties (items : list TodoItem) :
  model.deleteAllItems items = Normal tt []
  ∧ (model.deleteAllItems;; model.countItems) items
    = Normal {| numItems := 0; numDoneItems := 0 |} [].
Proof.
  split; [apply deleteAllItems_eq|].
  by erewrite js_bind_Normal by apply deleteAllItems_eq.
Qed.

(** A negative index makes [deleteItem] count from the end of the list,
    and an index below minus the length stands for the first position:
    on a non-empty list exactly the item at [max (length + index) 0] is
    removed. *)
Theorem deleteItem_negative_index (items : list TodoItem) (index : Z) :
  (index < 0)%Z → items ≠ [] →
  ∃ items',
    model.deleteItem index items = Normal tt items'
    ∧ items'
      = delete (Z.to_nat (Z.max (Z.of_nat (length items) + index) 0)) items
    ∧ length items' = length items - 1.
Proof.
  intros Hi Hne. eexists. split; [apply deleteItem_eq|].
  assert (index < Z.of_nat (length items))%Z as Hlt by lia.
  rewrite splice_one_delete by done.
  pose proof (splice_start_lt items index Hlt Hne) as Hs.
  unfold splice_start in *.
  destruct (Z.ltb_spec index 0); [|lia]. split; [done|].
  rewrite length_delete; [lia|]. by apply lookup_lt_is_Some_2.
Qed.

Lemma deleteItem_negative_index_witness :
  ∃ items',
    model.deleteItem (-7) initial_items = Normal tt items'
    ∧ items' = [mkTodoItem "This item is not done" false]
    ∧ length items' = 1.
Proof.
  apply (deleteItem_negative_index initial_items (-7)); [lia|discriminate].
Defined.

(** Whatever the index, [deleteItem] completes without an exception,
    removes at most one item and keeps the remaining items in their
    order: the result is the list with one position deleted, or the list
    itself. *)
Theorem deleteItem_at_most_one (items : list TodoItem) (index : Z) :
  ∃ items',
    model.deleteItem index items = Normal tt items'
    ∧ (items' = items ∨ ∃ k, k < length items ∧ items' = delete k items)
    ∧ length items - 1 ≤ length items' ≤ length items.
Proof.
  eexists. split; [apply deleteItem_eq|].
  destruct (decide (index < Z.of_nat (length items))%Z) as [Hlt|Hge].
  - destruct items as [|item items].
    + assert (splice (@nil TodoItem) index 1 = []) as ->
        by (unfold splice; by rewrite take_nil, drop_nil).
      split; [by left|]. simpl. lia.
    + rewrite splice_one_delete by done.
      pose proof (splice_start_lt (item :: items) index Hlt) as Hs.
      split.
      * right. eexists. split; [by apply Hs|done].
      * rewrite length_delete by (apply lookup_lt_is_Some_2; by apply Hs).
        lia.
  - rewrite splice_one_beyond by lia. split; [by left|lia].
Qed.

(** Creating an item and then deleting at index -1, or at the index the
    list had as its length, gives back the list as it was. *)
Theorem createItem_deleteItem_round_trip (items : list TodoItem)
    (n : string) :
  (model.createItem n;; model.deleteItem (-1)) items = Normal tt items
  ∧ (model.createItem n;; model.deleteItem (Z.of_nat (length items))) items
    = Normal tt items.
Proof.
  unfold model.createItem. unfold mbind at 2 4, js_bind at 2 4, get.
  split.
  - erewrite js_bind_Normal by apply run_put.
    rewrite deleteItem_eq, splice_one_last by by destruct items.
    rewrite length_app. simpl.
    replace (length items + 1 - 1) with (length items) by lia.
    by rewrite take_app_length.
  - erewrite js_bind_Normal by apply run_put.
    rewrite deleteItem_eq, splice_one_in_bounds
      by (rewrite length_app; simpl; lia).
    rewrite delete_take_drop, take_app_length.
    rewrite drop_ge by (rewrite length_app; simpl; lia).
    by rewrite app_nil_r.
Qed.

(** ** The model: counting and toggling everything *)

Lemma fmap_flip_all_done (items : list TodoItem) :
  forallb done items = true →
  flip_done <$> items = set_done false <$> items
  ∧ set_done true <$> items = items.
Proof.
  induction items as [|[n d] items IH]; [done|]. cbn [forallb done].
  intros [-> H]%andb_true_iff. destruct (IH H) as [IH1 IH2].
  by rewrite !fmap_cons, IH1, IH2.
Qed.

Lemma fmap_flip_none_done (items : list TodoItem) :
  forallb (λ item, negb (done item)) items = true →
  flip_done <$> items = set_done true <$> items
  ∧ set_done false <$> items = items.
Proof.
  induction items as [|[n d] items IH]; [done|]. cbn [forallb done].
  intros [Hd H]%andb_true_iff. destruct (IH H) as [IH1 IH2].
  rewrite !fmap_cons, IH1, IH2. by destruct d.
Qed.

Lemma toggleAllItems_set_done (items : list TodoItem) :
  model.toggleAllItems items
  = Normal tt (set_done (negb (forallb done items)) <$> items).
Proof.
  rewrite toggleAllItems_eq.
  destruct (forallb done items) eqn:Hall; simpl.
  - by destruct (fmap_flip_all_done items Hall) as [-> _].
  - destruct (forallb (λ item, negb (done item)) items) eqn:Hnone; [|done].
    by destruct (fmap_flip_none_done items Hnone) as [-> _].
Qed.

Lemma forallb_done_set_done b (items : list TodoItem) :
  items ≠ [] → forallb done (set_done b <$> items) = b.
Proof.
  destruct items as [|item items]; [done|]. intros _.
  simpl. destruct b; [|done]. simpl. by induction items.
Qed.

(** The two branches of [toggleAllItems] amount to one rule: when every
    item is done, every item becomes undone; in every other case every
    item becomes done.  So the list it leaves is uniform, and a count taken
    afterwards reports either no item or every item as done. *)
Theorem toggleAllItems_uniform (items : list TodoItem) :
  model.toggleAllItems items
  = Normal tt (set_done (negb (forallb done items)) <$> items)
  ∧ ∃ c items',
      (model.toggleAllItems;; model.countItems) items = Normal c items'
      ∧ all_same_done items' = true
      ∧ (numDoneItems c = 0 ∨ numDoneItems c = numItems c).
Proof.
  split; [apply toggleAllItems_set_done|].
  eexists _, _. split.
  { erewrite js_bind_Normal by apply toggleAllItems_set_done.
    apply countItems_eq. }
  cbn [numItems numDoneItems].
  set (b := negb (forallb done items)).
  assert (forallb done (set_done b <$> items) = true
          ∨ forallb (λ item, negb (done item)) (set_done b <$> items) = true)
    as Hu.
  { destruct b; [left|right]; by induction items. }
  split.
  - unfold all_same_done. destruct Hu as [-> | ->]; [done|].
    by rewrite orb_true_r.
  - destruct Hu as [Hu|Hu].
    + pose proof (count_done_all (set_done b <$> items)) as Hc.
      rewrite Hu in Hc. apply bool_decide_eq_true_1 in Hc. by right.
    + pose proof (count_done_none (set_done b <$> items)) as Hc.
      rewrite Hu in Hc. apply bool_decide_eq_true_1 in Hc. by left.
Qed.

(** Two calls of [toggleAllItems] in a row give back a list whose items
    all had the same done flag, and leave every item of a mixed list
    undone. *)
Theorem toggleAllItems_twice (items : list TodoItem) :
  (model.toggleAllItems;; model.toggleAllItems) items
  = Normal tt (if all_same_done items then items
               else set_done false <$> items).
Proof.
  erewrite js_bind_Normal by apply toggleAllItems_set_done.
  rewrite toggleAllItems_set_done.
  destruct items as [|item items]; [done|].
  rewrite forallb_done_set_done by done.
  rewrite negb_involutive, <- list_fmap_compose.
  generalize (item :: items). intros l. unfold all_same_done.
  change (set_done (forallb done l) ∘ _) with (set_done (forallb done l)).
  destruct (forallb done l) eqn:Hall; cbn [orb].
  - by destruct (fmap_flip_all_done l Hall) as [_ ->].
  - destruct (forallb (λ item, negb (done item)) l) eqn:Hnone; [|done].
    by destruct (fmap_flip_none_done l Hnone) as [_ ->].
Qed.

Lemma count_done_app (l1 l2 : list TodoItem) :
  length (filter (λ item, done item = true) (l1 ++ l2))
  = length (filter (λ item, done item = true) l1)
    + length (filter (λ item, done item = true) l2).
Proof. by rewrite filter_app, length_app. Qed.

(** The number of done items that [countItems] reports never exceeds the
    number of items, and creating an item raises the number of items by
    one and leaves the number of done items as it was. *)
Theorem countItems_after_createItem (items : list TodoItem) (n : string) :
  ∃ c c' items',
    model.countItems items = Normal c items
    ∧ (model.createItem n;; model.countItems) items = Normal c' items'
    ∧ numDoneItems c ≤ numItems c
    ∧ numItems c' = S (numItems c)
    ∧ numDoneItems c' = numDoneItems c.
Proof.
  eexists _, _, _. split; [apply countItems_eq|]. split.
  { erewrite js_bind_Normal by reflexivity. apply countItems_eq. }
  cbn [numItems numDoneItems]. split; [apply length_filter|].
  rewrite count_done_app, length_app. simpl. lia.
Qed.

(** Toggling an in-bounds item moves the number of done items by exactly
    one, down when the item was done and up when it was not, and keeps
    the number of items. *)
Theorem countItems_after_toggleItem (items : list TodoItem) (i : nat)
    (item : TodoItem) :
  items !! i = Some item →
  ∃ c c' items',
    model.countItems items = Normal c items
    ∧ (model.toggleItem (Z.of_nat i);; model.countItems) items
      = Normal c' items'
    ∧ numItems c' = numItems c
    ∧ (if done item
       then S (numDoneItems c') = numDoneItems c
       else numDoneItems c' = S (numDoneItems c)).
Proof.
  intros Hitem.
  destruct (take_drop_middle items i item Hitem) as [].
  assert (length (take i items) = i) as Hlen.
  { rewrite length_take. apply lookup_lt_Some in Hitem. lia. }
  set (pre := take i items) in *. set (rest := drop (S i) items) in *.
  clearbody pre rest. subst i. clear Hitem.
  eexists _, _, _. split; [apply countItems_eq|]. split.
  { erewrite js_bind_Normal by apply toggleItem_at. apply countItems_eq. }
  cbn [numItems numDoneItems]. split.
  - rewrite !length_app. done.
  - rewrite !count_done_app, !filter_cons.
    destruct item as [n []]; simpl; lia.
Qed.

Lemma countItems_after_toggleItem_witness :
  ∃ c c' items',
    model.countItems initial_items = Normal c initial_items
    ∧ (model.toggleItem 0;; model.countItems) initial_items
      = Normal c' items'
    ∧ numItems c' = numItems c
    ∧ S (numDoneItems c') = numDoneItems c.
Proof.
  apply (countItems_after_toggleItem initial_items 0
           (mkTodoItem "This item is done" true)).
  reflexivity.
Defined.

(** ** The view: what a render shows *)

Section page_further_properties.
  Context {browser : Browser}.

Lemma rendered_displayed_items (items : list TodoItem) :
  displayed_items (document (rendered items))
  = reverse (shown_item <$> items).
Proof.
  unfold displayed_items. cbn [rendered document todoListUL].
  by rewrite fmap_reverse, displayed_items_listElement.
Qed.

Lemma rendered_lookup (items : list TodoItem) (k : nat) (li : ListElement) :
  todoListUL (document (rendered items)) !! k = Some li →
  k < length items
  ∧ ∃ item,
      items !! (length items - S k) = Some item
      ∧ li = view.listElement (length items - S k) item.
Proof.
  cbn [rendered document todoListUL].
  intros [H Hk]%reverse_lookup_Some. rewrite length_imap in H, Hk.
  split; [done|]. rewrite list_lookup_imap in H.
  destruct (items !! (length items - S k)) as [item|]; [|done].
  exists item. split; [done|]. simpl in H. congruence.
Qed.

(** [displayTodoItems] never ends in an exception and never changes the
    model; the document it leaves depends on the model alone, not on what
    the document held before, so rendering a second time changes
    nothing. *)
Theorem displayTodoItems_rebuilds (items : list TodoItem)
    (d1 d2 : Document) :
  view.displayTodoItems {| model_items := items; document := d1 |}
  = view.displayTodoItems {| model_items := items; document := d2 |}
  ∧ (∃ d',
      view.displayTodoItems {| model_items := items; document := d1 |}
      = Normal tt {| model_items := items; document := d' |})
  ∧ (view.displayTodoItems;; view.displayTodoItems)
      {| model_items := items; document := d1 |}
    = view.displayTodoItems {| model_items := items; document := d1 |}.
Proof.
  rewrite !displayTodoItems_eq. cbn [model_items].
  split; [done|]. split; [by eexists|].
  erewrite js_bind_Normal by apply displayTodoItems_eq.
  by rewrite displayTodoItems_eq.
Qed.

(** After a render the list has one [<li>] per item of the model, and the
    button that toggles all items is hidden exactly when the model has no
    item. *)
Theorem displayTodoItems_toggleAllButton (p : Page) :
  ∃ p',
    view.displayTodoItems p = Normal tt p'
    ∧ length (todoListUL (document p')) = length (model_items p)
    ∧ (toggleAllButton_hide (document p') = true ↔ model_items p = []).
Proof.
  eexists. split; [apply displayTodoItems_eq|].
  cbn [rendered document todoListUL toggleAllButton_hide]. split.
  - by rewrite length_reverse, length_imap.
  - rewrite bool_decide_eq_true. apply length_zero_iff_nil.
Qed.


(** After a render every child of the list carries an id that is a valid
    index of the model, the same index in its delete button, and belongs
    to the model item at that index: its checkbox shows that item's done
    flag and its label holds what the browser reads back for that item's
    name. *)
Theorem displayTodoItems_ids_resolve (p p' : Page) (k : nat)
    (li : ListElement) :
  view.displayTodoItems p = Normal tt p' →
  todoListUL (document p') !! k = Some li →
  li_id li = length (model_items p) - S k
  ∧ li_id li < length (model_items p')
  ∧ deleteButton_index li = li_id li
  ∧ ∃ item,
      model_items p' !! li_id li = Some item
      ∧ checkBox_checked li = done item
      ∧ itemLabel_innerHTML li = innerHTML_read_back (name item).
Proof.
  rewrite displayTodoItems_eq. intros [= <-].
  intros (Hk & item & Hitem & ->)%rendered_lookup.
  cbn [view.listElement li_id rendered model_items] in *.
  split; [done|]. split; [lia|]. split; [done|].
  exists item. split; [done|]. by destruct item as [n []].
Qed.

(** ** The controller: handlers and the rows they act on *)

Lemma on_model_then_display (m : js (list TodoItem) unit) (p : Page) items' :
  m (model_items p) = Normal tt items' →
  (on_model m;; view.displayTodoItems) p = Normal tt (rendered items').
Proof.
  intros H.
  rewrite (js_bind_Normal _ _ p tt
             {| model_items := items'; document := document p |}).
  - by rewrite displayTodoItems_eq.
  - unfold on_model. by rewrite H.
Qed.

Lemma on_model_throw (m : js (list TodoItem) unit) (p : Page) e :
  m (model_items p) = Throw e (model_items p) →
  (on_model m;; view.displayTodoItems) p = Throw e p.
Proof.
  intros H. apply js_bind_Throw. unfold on_model. rewrite H.
  by destruct p.
Qed.

Lemma toggleItem_alter (items : list TodoItem) (i : nat) :
  i < length items →
  model.toggleItem (Z.of_nat i) items = Normal tt (alter flip_done i items).
Proof.
  intros Hi. destruct (lookup_lt_is_Some_2 items i Hi) as [item Hitem].
  unfold model.toggleItem, mbind, js_bind, get.
  by rewrite array_get_of_nat, Hitem, Nat2Z.id.
Qed.

Lemma changeItemName_alter (items : list TodoItem) (i : nat) n :
  i < length items →
  model.changeItemName (Z.of_nat i) n items
  = Normal tt (alter (set_name n) i items).
Proof.
  intros Hi. destruct (lookup_lt_is_Some_2 items i Hi) as [item Hitem].
  unfold model.changeItemName, mbind, js_bind, get.
  by rewrite array_get_of_nat, Hitem, Nat2Z.id.
Qed.

Lemma model_throw_beyond (items : list TodoItem) (i : nat) n :
  length items ≤ i →
  model.changeItemName (Z.of_nat i) n items = Throw TypeError items
  ∧ model.toggleItem (Z.of_nat i) items = Throw TypeError items.
Proof.
  intros Hi.
  unfold model.changeItemName, model.toggleItem, mbind, js_bind, get.
  by rewrite array_get_of_nat, lookup_ge_None_2.
Qed.

Section reverse_at.
  Context {A : Type}.
  Implicit Types l : list A.

Lemma split_at l i :
  i < length l →
  ∃ pre x rest, l = pre ++ x :: rest ∧ length pre = i
                ∧ length rest = length l - S i.
Proof.
  intros Hi. destruct (lookup_lt_is_Some_2 l i Hi) as [x Hx].
  exists (take i l), x, (drop (S i) l).
  rewrite take_drop_middle by done.
  rewrite length_take, length_drop. split; [done|lia].
Qed.

Lemma reverse_middle pre (x : A) rest :
  reverse (pre ++ x :: rest) = reverse rest ++ x :: reverse pre.
Proof. by rewrite reverse_app, reverse_cons, <- app_assoc. Qed.

Lemma reverse_delete l i :
  i < length l → reverse (delete i l) = delete (length l - S i) (reverse l).
Proof.
  intros (pre & x & rest & -> & <- & <-)%split_at.
  rewrite delete_middle, reverse_middle, <- (length_reverse rest).
  by rewrite delete_middle, reverse_app.
Qed.

Lemma reverse_alter (f : A → A) l i :
  i < length l →
  reverse (alter f i l) = alter f (length l - S i) (reverse l).
Proof.
  intros (pre & x & rest & -> & <- & <-)%split_at.
  rewrite alter_middle, !reverse_middle, <- (length_reverse rest).
  by rewrite alter_middle.
Qed.

End reverse_at.

(** Each handler that changes the model either completes with the document
    rebuilt from the model it leaves, or ends in an exception with model
    and document exactly as they were: the page never shows a model other
    than the current one. *)
Theorem controller_handlers_settle (p : Page) (index : Z) (n : string)
    (li : ListElement) :
  settled p (controller.changeItemName index n p)
  ∧ settled p (controller.deleteItem index p)
  ∧ settled p (controller.toggleItem li p)
  ∧ settled p (controller.toggleAllItems p)
  ∧ settled p (controller.updateItemNameOnFocusOut li p)
  ∧ settled p (controller.deleteAllItems true p).
Proof.
  assert (∀ m : js (list TodoItem) unit,
            (∃ items', m (model_items p) = Normal tt items')
            ∨ (∃ e, m (model_items p) = Throw e (model_items p)) →
            settled p ((on_model m;; view.displayTodoItems) p)) as Hs.
  { intros m [[items' H]|[e H]].
    - by rewrite (on_model_then_display _ _ _ H).
    - by rewrite (on_model_throw _ _ _ H). }
  assert (∀ i s, settled p (controller.changeItemName i s p)) as Hchange.
  { intros i s. apply Hs.
    unfold model.changeItemName, mbind, js_bind, get.
    destruct (array_get _ i); [left; by eexists | right; by eexists]. }
  assert (∀ i, settled p (controller.deleteItem i p)) as Hdelete.
  { intros i. apply Hs. left. by eexists. }
  split; [apply Hchange|]. split; [apply Hdelete|]. split; [|split; [|split]].
  - apply Hs. unfold model.toggleItem, mbind, js_bind, get.
    destruct (array_get _ _); [left; by eexists | right; by eexists].
  - apply Hs. left. eexists. apply toggleAllItems_eq.
  - unfold controller.updateItemNameOnFocusOut.
    destruct (negb _); [apply Hchange | apply Hdelete].
  - apply Hs. left. by eexists.
Qed.

(** A change of the checkbox in the row at position [k] of a freshly
    rendered list completes without an exception and flips the done flag
    of that very row: the rows shown afterwards are the rows shown before
    with row [k] flipped. *)
Theorem controller_toggleItem_row (items : list TodoItem) (k : nat)
    (li : ListElement) :
  todoListUL (document (rendered items)) !! k = Some li →
  ∃ p',
    controller.toggleItem li (rendered items) = Normal tt p'
    ∧ model_items p' = alter flip_done (li_id li) items
    ∧ displayed_items (document p')
      = alter flip_done k (displayed_items (document (rendered items))).
Proof.
  intros (Hk & item & Hitem & ->)%rendered_lookup.
  cbn [view.listElement li_id].
  assert (length items - S k < length items) as Hi by lia.
  eexists. split.
  { apply on_model_then_display. by apply toggleItem_alter. }
  split; [done|].
  rewrite !rendered_displayed_items.
  cbn [rendered model_items view.listElement li_id].
  rewrite (list_fmap_alter _ flip_done flip_done)
    by by apply Forall_true.
  rewrite reverse_alter by by rewrite length_fmap.
  rewrite length_fmap. f_equal. lia.
Qed.

(** A click on the delete button in the row at position [k] of a freshly
    rendered list removes that very row and no other: the rows shown
    afterwards are the rows shown before without row [k]. *)
Theorem controller_deleteItem_row (items : list TodoItem) (k : nat)
    (li : ListElement) :
  todoListUL (document (rendered items)) !! k = Some li →
  ∃ p',
    controller.deleteItem (Z.of_nat (deleteButton_index li)) (rendered items)
    = Normal tt p'
    ∧ model_items p' = delete (deleteButton_index li) items
    ∧ displayed_items (document p')
      = delete k (displayed_items (document (rendered items))).
Proof.
  intros (Hk & item & Hitem & ->)%rendered_lookup.
  cbn [view.listElement deleteButton_index].
  assert (length items - S k < length items) as Hi by lia.
  eexists. split.
  { apply on_model_then_display. cbn [rendered model_items].
    rewrite deleteItem_eq. by rewrite splice_one_in_bounds. }
  split; [done|].
  rewrite !rendered_displayed_items.
  cbn [rendered model_items].
  rewrite list_fmap_delete, reverse_delete by by rewrite length_fmap.
  rewrite length_fmap. f_equal. lia.
Qed.

(** When the edit input of an item loses the focus, a non-empty text
    becomes the item's name and an empty text deletes the item; either
    way the list is rendered anew from the changed model. *)
Theorem updateItemNameOnFocusOut_in_bounds (p : Page) (li : ListElement) :
  li_id li < length (model_items p) →
  controller.updateItemNameOnFocusOut li p
  = Normal tt
      (rendered (if bool_decide (inputBox_value li = "")
                 then delete (li_id li) (model_items p)
                 else alter (set_name (inputBox_value li)) (li_id li)
                            (model_items p))).
Proof.
  intros Hi. unfold controller.updateItemNameOnFocusOut.
  destruct (bool_decide (inputBox_value li = "")); cbn [negb].
  - apply on_model_then_display.
    rewrite deleteItem_eq. by rewrite splice_one_in_bounds.
  - apply on_model_then_display. by apply changeItemName_alter.
Qed.

(** When the id of the [<li>] is no longer an index of the model, losing
    the focus with an empty text deletes nothing and completes normally,
    while losing it with a non-empty text ends in a [TypeError] that
    leaves model and document as they were. *)
Theorem updateItemNameOnFocusOut_stale_id (p : Page) (li : ListElement) :
  length (model_items p) ≤ li_id li →
  controller.updateItemNameOnFocusOut li p
  = if bool_decide (inputBox_value li = "")
    then Normal tt (rendered (model_items p))
    else Throw TypeError p.
Proof.
  intros Hi. unfold controller.updateItemNameOnFocusOut.
  destruct (bool_decide (inputBox_value li = "")); cbn [negb].
  - apply on_model_then_display.
    rewrite deleteItem_eq. by rewrite splice_one_beyond by lia.
  - apply on_model_throw. by apply model_throw_beyond.
Qed.

(** [deleteAllItems] does nothing at all when the user declines; when the
    user confirms, it empties the model, empties the rendered list and
    hides the button that toggles all items. *)
Theorem controller_deleteAllItems_confirm (p : Page) :
  controller.deleteAllItems false p = Normal tt p
  ∧ controller.deleteAllItems true p
    = Normal tt {| model_items := [];
                   document := {| toggleAllButton_hide := true;
                                  todoListUL := [] |} |}.
Proof.
  split; [done|]. unfold controller.deleteAllItems.
  rewrite (on_model_then_display _ _ []); [done|].
  apply deleteAllItems_eq.
Qed.

(** [createItem] takes whatever the text field holds, the empty text
    included, as the name of a new undone item at the end of the model;
    it clears the text field, renders the list anew, and the new item is
    shown by the first child of the list. *)
Theorem controller_createItem (p : Page) (text : string) :
  ∃ p',
    controller.createItem
      {| window_page := p; createItemInput_value := text |}
    = Normal tt {| window_page := p'; createItemInput_value := "" |}
    ∧ model_items p' = model_items p ++ [mkTodoItem text false]
    ∧ p' = rendered (model_items p')
    ∧ todoListUL (document p') !! 0
      = Some (view.listElement (length (model_items p))
                               (mkTodoItem text false)).
Proof.
  exists (rendered (model_items p ++ [mkTodoItem text false])).
  split; [|split; [done|split; [done|]]].
  - unfold controller.createItem, mbind, js_bind, get, on_page, on_model.
    cbn [window_page createItemInput_value].
    unfold model.createItem, mbind, js_bind, get. rewrite run_put.
    cbn [window_page createItemInput_value].
    by rewrite displayTodoItems_eq.
  - cbn [rendered document todoListUL].
    rewrite imap_app, reverse_app. simpl. by rewrite Nat.add_0_r.
Qed.

(** ** The controller: key events *)

Lemma fmap_done_alter_set_name n i (items : list TodoItem) :
  done <$> alter (set_name n) i items = done <$> items.
Proof.
  apply list_eq. intros j. rewrite !list_lookup_fmap.
  destruct (decide (i = j)) as [->|Hne].
  - rewrite list_lookup_alter_eq. by destruct (items !! j).
  - by rewrite list_lookup_alter_ne.
Qed.

(** Whatever the key and the target, and whether it completes or ends in
    an exception, [updateItemNameOnKeyUp] neither adds nor deletes an item
    and changes no done flag. *)
Theorem updateItemNameOnKeyUp_keeps_flags (event : KeyEvent) (p : Page) :
  let p' := final_state (controller.updateItemNameOnKeyUp event p) in
  length (model_items p') = length (model_items p)
  ∧ done <$> model_items p' = done <$> model_items p.
Proof.
  unfold controller.updateItemNameOnKeyUp.
  destruct (strict_equal (code event) ENTER_KEY && _).
  - destruct (decide (li_id (target_li event) < length (model_items p)))
      as [Hi|Hi].
    + rewrite controller_changeItemName_eq by done.
      cbn [final_state rendered model_items].
      by rewrite length_alter, fmap_done_alter_set_name.
    + unfold controller.changeItemName.
      rewrite (on_model_throw _ _ TypeError); [done|].
      apply model_throw_beyond. lia.
  - destruct (strict_equal (code event) ESC_KEY); [|done].
    unfold mbind, js_bind, get. cbv beta iota.
    destruct (model_items p !! li_id (target_li event)); [|done].
    unfold modify_document. by rewrite displayTodoItems_eq.
Qed.

End page_further_properties.

(** * The page of the initial items

    The names of the two initial items hold no markup, so their labels
    read back as written: the lemmas below run the view and the
    controller on them in [plain_text_browser]. *)

#[local] Existing Instance plain_text_browser.

(** C2 (as stated, refuted): after rendering the two initial items, the
    first child of the list shows the second item of the model. *)
Lemma C2_displayed_order_differs :
  ∃ d',
    view.displayTodoItems (rendered initial_items)
    = Normal tt {| model_items := initial_items; document := d' |}
    ∧ displayed_items d'
      = [mkTodoItem "This item is not done" false;
         mkTodoItem "This item is done" true]
    ∧ displayed_items d' ≠ initial_items.
Proof. eexists. split; [|split]; [reflexivity|reflexivity|discriminate]. Qed.


Lemma displayTodoItems_ids_resolve_witness :
  let li := view.listElement 1 (mkTodoItem "This item is not done" false) in
  li_id li = 2 - 1
  ∧ li_id li < 2
  ∧ deleteButton_index li = li_id li
  ∧ ∃ item,
      initial_items !! li_id li = Some item
      ∧ checkBox_checked li = done item
      ∧ itemLabel_innerHTML li = innerHTML_read_back (name item).
Proof.
  apply (displayTodoItems_ids_resolve
           {| model_items := initial_items;
              document := {| toggleAllButton_hide := true;
                             todoListUL := [] |} |}
           (rendered initial_items) 0); reflexivity.
Defined.

Lemma controller_toggleItem_row_witness :
  ∃ p',
    controller.toggleItem
      (view.listElement 1 (mkTodoItem "This item is not done" false))
      (rendered initial_items)
    = Normal tt p'
    ∧ model_items p'
      = [mkTodoItem "This item is done" true;
         mkTodoItem "This item is not done" true]
    ∧ displayed_items (document p')
      = [mkTodoItem "This item is not done" true;
         mkTodoItem "This item is done" true].
Proof.
  exact (controller_toggleItem_row initial_items 0
           (view.listElement 1 (mkTodoItem "This item is not done" false))
           eq_refl).
Defined.

Lemma controller_deleteItem_row_witness :
  ∃ p',
    controller.deleteItem 1 (rendered initial_items) = Normal tt p'
    ∧ model_items p' = [mkTodoItem "This item is done" true]
    ∧ displayed_items (document p') = [mkTodoItem "This item is done" true].
Proof.
  exact (controller_deleteItem_row initial_items 0
           (view.listElement 1 (mkTodoItem "This item is not done" false))
           eq_refl).
Defined.

Lemma updateItemNameOnFocusOut_in_bounds_witness :
  controller.updateItemNameOnFocusOut
    (typed_into 0 "" (view.listElement 0 (mkTodoItem "This item is done" true)))
    (rendered initial_items)
  = Normal tt (rendered [mkTodoItem "This item is not done" false]).
Proof.
  apply (updateItemNameOnFocusOut_in_bounds (rendered initial_items)
           (typed_into 0 ""
              (view.listElement 0 (mkTodoItem "This item is done" true)))).
  simpl. lia.
Defined.

Lemma updateItemNameOnFocusOut_stale_id_witness :
  controller.updateItemNameOnFocusOut
    (view.listElement 1 (mkTodoItem "This item is not done" false))
    (rendered [mkTodoItem "This item is done" true])
  = Throw TypeError (rendered [mkTodoItem "This item is done" true]).
Proof.
  apply (updateItemNameOnFocusOut_stale_id
           (rendered [mkTodoItem "This item is done" true])
           (view.listElement 1 (mkTodoItem "This item is not done" false))).
  simpl. lia.
Defined.

Lemma updateItemNameOnKeyUp_code_13_witness :
  controller.updateItemNameOnKeyUp
    {| code := JSNumber 13;
       target_li :=
         typed_into 0 "Buy milk"
           (view.listElement 0 (mkTodoItem "This item is done" true)) |}
    (editing initial_items 0 "Buy milk")
  = Normal tt (rendered [mkTodoItem "Buy milk" true;
                         mkTodoItem "This item is not done" false]).
Proof.
  apply (updateItemNameOnKeyUp_code_13 (editing initial_items 0 "Buy milk")
           (typed_into 0 "Buy milk"
              (view.listElement 0 (mkTodoItem "This item is done" true)))).
  - simpl. lia.
  - discriminate.
Defined.

Lemma updateItemNameOnKeyUp_code_27_witness :
  controller.updateItemNameOnKeyUp
    {| code := JSNumber 27;
       target_li :=
         typed_into 0 "Buy milk"
           (view.listElement 0 (mkTodoItem "This item is done" true)) |}
    (editing initial_items 0 "Buy milk")
  = Normal tt (rendered initial_items).
Proof.
  apply (updateItemNameOnKeyUp_code_27 (editing initial_items 0 "Buy milk")
           (typed_into 0 "Buy milk"
              (view.listElement 0 (mkTodoItem "This item is done" true)))).
  simpl. lia.
Defined.
